(** * stack_heap.c: the address-space demonstration, embedded and verified

    Source: [src/a_memory-address/stack_heap.c].

    The program declares one [int] in automatic storage, one in dynamic
    storage and relies on one in static storage, prints the address of each
    with [printf("... %p\n", ...)], releases the dynamic one and returns 0.

    Everything the C implementation decides (where the objects are placed,
    what [malloc] returns, how [%p] renders a pointer, [sizeof(int)]) is
    gathered in a [platform] record.  The body of [main] is a list of
    statements, each a function on the machine state, executed in order by
    [step]. *)

From Stdlib Require Import ZArith List Ascii String HexString Lia.
From stdpp Require Import base decidable gmap list.
Import ListNotations.

Local Open Scope Z_scope.

(** ** Values, output items and events *)

(** Contents of an [int] object: indeterminate until first assigned. *)
Inductive val : Type :=
| Vundef
| Vint (n : Z).

(** What [printf] sends to standard output: plain characters, and the
    [%p] conversions, kept apart from the characters so that the address
    (implementation-defined) can be told from the text (fixed). *)
Inductive item : Type :=
| Char (c : ascii)
| Pointer (a : Z).

(** The operations of the run, in the order they happen. *)
Inductive event : Type :=
| EvMalloc (size : Z) (result : Z)
| EvStore (a : Z) (v : Z)
| EvPrintf (fmt : string) (arg : Z)
| EvFree (a : Z)
| EvExit (code : Z).

Inductive status : Type :=
| Running
| Exited (code : Z)
| Undefined.

(** What a process is started with.  [main] is declared [int main()]: it
    names none of it. *)
Record process_input : Type := ProcessInput {
  argv : list string;
  environ : list (string * string);
  stdin : list ascii
}.

(** ** The implementation-defined part *)

Record platform : Type := Platform {
  sizeof_int : Z;
  addr_stack_var : Z;          (* &stack_var in main's activation record *)
  addr_global_var : Z;         (* &global_var in static storage *)
  malloc_ret : Z -> Z;         (* what malloc(size) returns; NULL on failure *)
  fmt_p : Z -> string          (* the %p conversion *)
}.

Definition NULL : Z := 0.

(** The bytes [a .. a + sizeof(int) - 1] of an [int] object at [a]. *)
Definition in_object (p : platform) (a x : Z) : Prop :=
  a <= x < a + sizeof_int p.

Definition disjoint_objects (p : platform) (a b : Z) : Prop :=
  a + sizeof_int p <= b \/ b + sizeof_int p <= a.

(** What ISO C promises of any implementation: objects have a positive
    size, the null pointer is the address of no object, live objects do not
    overlap, and a successful [malloc] returns storage disjoint from every
    live object. *)
Definition wf_platform (p : platform) : Prop :=
  0 < sizeof_int p
  /\ ~ in_object p (addr_stack_var p) NULL
  /\ ~ in_object p (addr_global_var p) NULL
  /\ disjoint_objects p (addr_stack_var p) (addr_global_var p)
  /\ (malloc_ret p (sizeof_int p) <> NULL ->
      ~ in_object p (malloc_ret p (sizeof_int p)) NULL
      /\ disjoint_objects p (malloc_ret p (sizeof_int p)) (addr_stack_var p)
      /\ disjoint_objects p (malloc_ret p (sizeof_int p)) (addr_global_var p)).

(** The run is one in which allocation succeeds. *)
Definition allocation_succeeds (p : platform) : Prop :=
  malloc_ret p (sizeof_int p) <> NULL.

(** ** Machine state *)

Record state : Type := State {
  pc : nat;                    (* index of the next statement of main *)
  st : status;
  mem : gmap Z val;            (* live int objects, by address *)
  allocated : gset Z;          (* live blocks obtained from malloc *)
  heap_var : option Z;         (* the local pointer; None before line 8 *)
  out : list item;             (* standard output so far *)
  trace : list event;
  input : process_input        (* never consulted *)
}.

Definition set_pc (n : nat) (s : state) : state :=
  State n (st s) (mem s) (allocated s) (heap_var s) (out s) (trace s) (input s).

Definition set_st (x : status) (s : state) : state :=
  State (pc s) x (mem s) (allocated s) (heap_var s) (out s) (trace s) (input s).

Definition set_mem (m : gmap Z val) (s : state) : state :=
  State (pc s) (st s) m (allocated s) (heap_var s) (out s) (trace s) (input s).

Definition set_allocated (h : gset Z) (s : state) : state :=
  State (pc s) (st s) (mem s) h (heap_var s) (out s) (trace s) (input s).

Definition set_heap_var (v : option Z) (s : state) : state :=
  State (pc s) (st s) (mem s) (allocated s) v (out s) (trace s) (input s).

Definition emit (l : list item) (s : state) : state :=
  State (pc s) (st s) (mem s) (allocated s) (heap_var s) (out s ++ l) (trace s)
        (input s).

Definition log (e : event) (s : state) : state :=
  State (pc s) (st s) (mem s) (allocated s) (heap_var s) (out s)
        (trace s ++ [e]) (input s).

Definition stmt : Type := state -> state.

(** ** The C operations the program uses *)

(** Initialised declaration of an automatic [int] placed at [a]. *)
Definition declare_int (a v : Z) : stmt :=
  fun s => set_mem (<[a := Vint v]> (mem s)) s.

(** [malloc(size)]: the platform picks the result; a non-null result is a
    new live block with indeterminate contents. *)
Definition malloc (p : platform) (size : Z) (s : state) : Z * state :=
  let r := malloc_ret p size in
  let s1 := log (EvMalloc size r) s in
  if decide (r = NULL) then (r, s1)
  else (r, set_allocated (allocated s1 ∪ {[r]})
             (set_mem (<[r := Vundef]> (mem s1)) s1)).

(** [*a = v]: defined only when [a] is the address of a live object. *)
Definition store (a v : Z) : stmt :=
  fun s =>
    let s1 := log (EvStore a v) s in
    match mem s1 !! a with
    | Some _ => set_mem (<[a := Vint v]> (mem s1)) s1
    | None => set_st Undefined s1
    end.

Definition load (a : Z) (s : state) : option val := mem s !! a.

(** One-argument [printf]: [%p] is replaced by the argument, every other
    character is copied. *)
Fixpoint format (fmt : string) (arg : Z) : list item :=
  match fmt with
  | EmptyString => []
  | String c rest =>
      if Ascii.eqb c "%"%char then
        match rest with
        | String d rest' =>
            if Ascii.eqb d "p"%char then Pointer arg :: format rest' arg
            else Char c :: format rest arg
        | EmptyString => [Char c]
        end
      else Char c :: format rest arg
  end.

Definition printf (fmt : string) (arg : Z) : stmt :=
  fun s => emit (format fmt arg) (log (EvPrintf fmt arg) s).

(** [free(a)]: nothing for the null pointer, releases a live block,
    undefined for anything else. *)
Definition free (a : Z) : stmt :=
  fun s =>
    let s1 := log (EvFree a) s in
    if decide (a = NULL) then s1
    else if decide (a ∈ allocated s1) then
      set_allocated (allocated s1 ∖ {[a]}) (set_mem (delete a (mem s1)) s1)
    else set_st Undefined s1.

(** [return code;] from [main]: the activation record goes away and the
    process exits with [code]. *)
Definition return_ (p : platform) (code : Z) : stmt :=
  fun s =>
    set_st (Exited code)
      (log (EvExit code) (set_mem (delete (addr_stack_var p) (mem s)) s)).

(** Reading the local pointer [heap_var]; indeterminate before its
    initialiser has run. *)
Definition with_heap_var (k : Z -> stmt) : stmt :=
  fun s =>
    match heap_var s with
    | Some h => k h s
    | None => set_st Undefined s
    end.

Definition nl : string := String (ascii_of_nat 10) EmptyString.

(** ** The program *)

(** [int global_var = 42;] *)
Definition global_var : Z := 42.

(** The body of [main], one entry per statement, with the two literals
    assigned in it left open. *)
Definition body_of (p : platform) (lit_stack lit_heap : Z) : list stmt :=
  [ (* int stack_var = 10; *)
    declare_int (addr_stack_var p) lit_stack;
    (* int *heap_var = malloc(sizeof(int)); *)
    (fun s => let (r, s') := malloc p (sizeof_int p) s in
              set_heap_var (Some r) s');
    (* *heap_var = 20; *)
    with_heap_var (fun h => store h lit_heap);
    (* printf("Address of stack_var: %p\n", (void* )&stack_var); *)
    printf ("Address of stack_var: %p" ++ nl) (addr_stack_var p);
    (* printf("Address of heap_var: %p\n", (void* )heap_var); *)
    with_heap_var (fun h => printf ("Address of heap_var: %p" ++ nl) h);
    (* printf("Address of global_var: %p\n", (void* )&global_var); *)
    printf ("Address of global_var: %p" ++ nl) (addr_global_var p);
    (* free(heap_var); *)
    with_heap_var free;
    (* return 0; *)
    return_ p 0 ].

(** Process start: static storage is initialised, nothing else exists. *)
Definition initial_state_of (p : platform) (lit_global : Z)
    (inp : process_input) : state :=
  State 0 Running {[ addr_global_var p := Vint lit_global ]} ∅ None [] [] inp.

(** One statement.  A run that has exited or gone wrong stays where it
    is; control that reaches the closing brace of [main] returns 0. *)
Definition step (p : platform) (body : list stmt) (s : state) : state :=
  match st s with
  | Running =>
      set_pc (S (pc s))
        (match body !! pc s with
         | Some c => c s
         | None => return_ p 0 s
         end)
  | _ => s
  end.

Definition exec (p : platform) (body : list stmt) (n : nat) (s : state) : state :=
  Nat.iter n (step p body) s.

(** The state after the first [k] statements. *)
Definition state_after_of (p : platform) (lit_stack lit_heap lit_global : Z)
    (inp : process_input) (k : nat) : state :=
  exec p (body_of p lit_stack lit_heap) k (initial_state_of p lit_global inp).

Definition run_of (p : platform) (lit_stack lit_heap lit_global : Z)
    (inp : process_input) : state :=
  state_after_of p lit_stack lit_heap lit_global inp
    (length (body_of p lit_stack lit_heap)).

(** The program as written: literals 10, 20 and 42. *)
Definition main_body (p : platform) : list stmt := body_of p 10 20.

Definition state_after (p : platform) (inp : process_input) (k : nat) : state :=
  state_after_of p 10 20 global_var inp k.

Definition main (p : platform) (inp : process_input) : state :=
  run_of p 10 20 global_var inp.

(** ** Observations *)

Definition render (p : platform) (i : item) : string :=
  match i with
  | Char c => String c EmptyString
  | Pointer a => fmt_p p a
  end.

(** The text on standard output. *)
Definition stdout_text (p : platform) (s : state) : string :=
  fold_right String.append EmptyString (map (render p) (out s)).

(** The addresses that were printed, in order. *)
Definition reported_addresses (s : state) : list Z :=
  flat_map (fun i => match i with Pointer a => [a] | Char _ => [] end) (out s).

(** The output with every address blanked. *)
Definition mask (i : item) : item :=
  match i with
  | Char c => Char c
  | Pointer _ => Pointer 0
  end.

Definition masked_output (s : state) : list item := map mask (out s).

(** One output line of the program. *)
Definition address_line (p : platform) (name : string) (a : Z) : string :=
  ("Address of " ++ name ++ ": " ++ fmt_p p a ++ nl)%string.

(** Blocks obtained from [malloc], and blocks handed to [free]. *)
Definition allocations (tr : list event) : list Z :=
  flat_map (fun e => match e with
                     | EvMalloc _ r => if decide (r = NULL) then [] else [r]
                     | _ => []
                     end) tr.

Definition releases (tr : list event) : list Z :=
  flat_map (fun e => match e with EvFree a => [a] | _ => [] end) tr.

Definition is_free_of (h : Z) (e : event) : bool :=
  match e with
  | EvFree a => bool_decide (a = h)
  | _ => false
  end.

(** An event that reads or writes through [h], or reads the pointer. *)
Definition uses (h : Z) (e : event) : bool :=
  match e with
  | EvStore a _ => bool_decide (a = h)
  | EvPrintf _ a => bool_decide (a = h)
  | _ => false
  end.

Definition is_exit (e : event) : bool :=
  match e with
  | EvExit _ => true
  | _ => false
  end.

Definition is_malloc_of (h : Z) (e : event) : bool :=
  match e with
  | EvMalloc _ r => bool_decide (r = h)
  | _ => false
  end.

(** The events before, and after, the first [free(h)]. *)
Fixpoint before_release (h : Z) (tr : list event) : list event :=
  match tr with
  | [] => []
  | e :: tr' => if is_free_of h e then [] else e :: before_release h tr'
  end.

Fixpoint after_release (h : Z) (tr : list event) : list event :=
  match tr with
  | [] => []
  | e :: tr' => if is_free_of h e then tr' else after_release h tr'
  end.

(** One allocation, released once, after its last use and before exit. *)
Definition allocated_and_released_once (tr : list event) : Prop :=
  exists h,
    allocations tr = [h]
    /\ releases tr = [h]
    /\ existsb (is_malloc_of h) (before_release h tr) = true
    /\ existsb (uses h) (after_release h tr) = false
    /\ existsb is_exit (before_release h tr) = false
    /\ existsb is_exit (after_release h tr) = true.

(** A store through the address [a]. *)
Definition writes_to (a : Z) (e : event) : bool :=
  match e with
  | EvStore b _ => bool_decide (b = a)
  | _ => false
  end.

(** Lines on standard output: the newline characters written. *)
Definition is_newline (i : item) : bool :=
  match i with
  | Char c => Ascii.eqb c (ascii_of_nat 10)
  | Pointer _ => false
  end.

Definition count_lines (o : list item) : nat :=
  length (List.filter is_newline o).

(** Two states that agree on everything but the values held in memory,
    the record of events and the unread process input. *)
Definition similar (s1 s2 : state) : Prop :=
  pc s1 = pc s2
  /\ st s1 = st s2
  /\ dom (mem s1) = dom (mem s2)
  /\ allocated s1 = allocated s2
  /\ heap_var s1 = heap_var s2
  /\ out s1 = out s2.

(** ** Two concrete platforms *)

(** An LP64 Linux process with glibc: [%p] prints [(nil)] for the null
    pointer and lower-case hexadecimal otherwise. *)
Definition glibc_fmt_p (a : Z) : string :=
  if decide (a = NULL) then "(nil)"%string else HexString.of_Z a.

Definition linux : platform :=
  Platform 4 140722318422252 4210728 (fun _ => 4215456) glibc_fmt_p.

(** The same process when the heap is exhausted. *)
Definition linux_out_of_memory : platform :=
  Platform 4 140722318422252 4210728 (fun _ => NULL) glibc_fmt_p.

Definition no_input : process_input := ProcessInput [] [] [].

Definition some_input : process_input :=
  ProcessInput ["./stack_heap"; "-v"]%string [("HOME", "/root")]%string
               ["x"%char].


(** * Verification *)

(** ** Running the machine *)

Lemma state_after_S p a b c inp k :
  state_after_of p a b c inp (S k) =
  step p (body_of p a b) (state_after_of p a b c inp k).
Proof. reflexivity. Qed.

Lemma step_stopped p body s : st s <> Running -> step p body s = s.
Proof. unfold step. destruct (st s); congruence. Qed.

Lemma exec_stopped p body n s : st s <> Running -> exec p body n s = s.
Proof.
  intros H. induction n as [|n IH]; [reflexivity|].
  change (exec p body (S n) s) with (step p body (exec p body n s)).
  rewrite IH. now apply step_stopped.
Qed.

Lemma exec_add p body n m s :
  exec p body (n + m) s = exec p body n (exec p body m s).
Proof. unfold exec. apply Nat.iter_add. Qed.

(** Once the run has stopped after [k] statements, later program points
    see the same state. *)
Lemma state_after_stopped p a b c inp k n :
  st (state_after_of p a b c inp k) <> Running -> (k <= n)%nat ->
  state_after_of p a b c inp n = state_after_of p a b c inp k.
Proof.
  intros H Hle. unfold state_after_of in *.
  replace n with ((n - k) + k)%nat by lia.
  rewrite exec_add. now apply exec_stopped.
Qed.

(** ** What well-formedness gives *)

Lemma wf_stack_not_null p : wf_platform p -> addr_stack_var p <> NULL.
Proof. unfold wf_platform, in_object, NULL. intros (? & ? & ? & ?). lia. Qed.

Lemma wf_global_not_null p : wf_platform p -> addr_global_var p <> NULL.
Proof. unfold wf_platform, in_object, NULL. intros (? & ? & ? & ?). lia. Qed.

Lemma wf_stack_global p : wf_platform p -> addr_stack_var p <> addr_global_var p.
Proof.
  unfold wf_platform, disjoint_objects. intros (? & ? & ? & ? & ?). lia.
Qed.

Lemma wf_heap_stack p :
  wf_platform p -> allocation_succeeds p ->
  malloc_ret p (sizeof_int p) <> addr_stack_var p.
Proof.
  unfold wf_platform, allocation_succeeds, disjoint_objects.
  intros (? & ? & ? & ? & Hm) Hs. destruct (Hm Hs) as (? & ? & ?). lia.
Qed.

Lemma wf_heap_global p :
  wf_platform p -> allocation_succeeds p ->
  malloc_ret p (sizeof_int p) <> addr_global_var p.
Proof.
  unfold wf_platform, allocation_succeeds, disjoint_objects.
  intros (? & ? & ? & ? & Hm) Hs. destruct (Hm Hs) as (? & ? & ?). lia.
Qed.

Lemma linux_wf : wf_platform linux.
Proof.
  unfold wf_platform, in_object, disjoint_objects, NULL; cbn. lia.
Qed.

Lemma linux_out_of_memory_wf : wf_platform linux_out_of_memory.
Proof.
  unfold wf_platform, in_object, disjoint_objects, NULL; cbn.
  split; [lia|]. split; [lia|]. split; [lia|]. split; [lia|].
  intros H. now contradiction H.
Qed.

Lemma linux_allocates : allocation_succeeds linux.
Proof. unfold allocation_succeeds, NULL; cbn. lia. Qed.

(** ** The program points, one by one *)

Section Points.
Variables (p : platform) (a b c : Z) (inp : process_input).

Local Abbreviation h := (malloc_ret p (sizeof_int p)).
Local Abbreviation sz := (sizeof_int p).
Local Abbreviation m1 :=
  (<[addr_stack_var p := Vint a]> ({[addr_global_var p := Vint c]} : gmap Z val)).
Local Abbreviation m3 := (<[h := Vint b]> (<[h := Vundef]> m1)).
Local Abbreviation f1 := ("Address of stack_var: %p" ++ nl)%string.
Local Abbreviation f2 := ("Address of heap_var: %p" ++ nl)%string.
Local Abbreviation f3 := ("Address of global_var: %p" ++ nl)%string.
Local Abbreviation o1 := (format f1 (addr_stack_var p)).
Local Abbreviation o2 := (o1 ++ format f2 h).
Local Abbreviation o3 := (o2 ++ format f3 (addr_global_var p)).
Local Abbreviation t3 := [EvMalloc sz h; EvStore h b].

Lemma after_0 :
  state_after_of p a b c inp 0 =
  State 0 Running {[addr_global_var p := Vint c]} ∅ None [] [] inp.
Proof. reflexivity. Qed.

Lemma after_1 :
  state_after_of p a b c inp 1 = State 1 Running m1 ∅ None [] [] inp.
Proof. reflexivity. Qed.

Lemma after_2 :
  allocation_succeeds p ->
  state_after_of p a b c inp 2 =
  State 2 Running (<[h := Vundef]> m1) (∅ ∪ {[h]}) (Some h) []
        [EvMalloc sz h] inp.
Proof.
  intros H. rewrite state_after_S, after_1.
  unfold step, body_of; cbn. unfold malloc; cbn.
  destruct (decide _) as [E|E]; [contradiction|]. reflexivity.
Qed.

Lemma after_3 :
  allocation_succeeds p ->
  state_after_of p a b c inp 3 =
  State 3 Running m3 (∅ ∪ {[h]}) (Some h) [] t3 inp.
Proof.
  intros H. rewrite state_after_S, after_2 by done.
  unfold step, body_of; cbn. unfold store; cbn.
  rewrite lookup_insert_eq. reflexivity.
Qed.

Lemma after_4 :
  allocation_succeeds p ->
  state_after_of p a b c inp 4 =
  State 4 Running m3 (∅ ∪ {[h]}) (Some h) o1
        (t3 ++ [EvPrintf f1 (addr_stack_var p)]) inp.
Proof.
  intros H. rewrite state_after_S, after_3 by done. reflexivity.
Qed.

Lemma after_5 :
  allocation_succeeds p ->
  state_after_of p a b c inp 5 =
  State 5 Running m3 (∅ ∪ {[h]}) (Some h) o2
        (t3 ++ [EvPrintf f1 (addr_stack_var p); EvPrintf f2 h]) inp.
Proof.
  intros H. rewrite state_after_S, after_4 by done. reflexivity.
Qed.

Lemma after_6 :
  allocation_succeeds p ->
  state_after_of p a b c inp 6 =
  State 6 Running m3 (∅ ∪ {[h]}) (Some h) o3
        (t3 ++ [EvPrintf f1 (addr_stack_var p); EvPrintf f2 h;
                EvPrintf f3 (addr_global_var p)]) inp.
Proof.
  intros H. rewrite state_after_S, after_5 by done. reflexivity.
Qed.

Lemma after_7 :
  allocation_succeeds p ->
  state_after_of p a b c inp 7 =
  State 7 Running (delete h m3) ((∅ ∪ {[h]}) ∖ {[h]}) (Some h) o3
        (t3 ++ [EvPrintf f1 (addr_stack_var p); EvPrintf f2 h;
                EvPrintf f3 (addr_global_var p); EvFree h]) inp.
Proof.
  intros H. rewrite state_after_S, after_6 by done.
  unfold step, body_of; cbn. unfold free; cbn.
  destruct (decide (h = NULL)) as [E|E]; [contradiction|].
  destruct (decide _) as [E'|E']; [reflexivity|].
  exfalso. apply E'. set_solver.
Qed.

Lemma after_8 :
  allocation_succeeds p ->
  state_after_of p a b c inp 8 =
  State 8 (Exited 0) (delete (addr_stack_var p) (delete h m3))
        ((∅ ∪ {[h]}) ∖ {[h]}) (Some h) o3
        (t3 ++ [EvPrintf f1 (addr_stack_var p); EvPrintf f2 h;
                EvPrintf f3 (addr_global_var p); EvFree h; EvExit 0]) inp.
Proof.
  intros H. rewrite state_after_S, after_7 by done. reflexivity.
Qed.

(** When [malloc] returns the null pointer. *)
Lemma after_2_null :
  ~ allocation_succeeds p ->
  state_after_of p a b c inp 2 =
  State 2 Running m1 ∅ (Some h) [] [EvMalloc sz h] inp.
Proof.
  intros H. rewrite state_after_S, after_1.
  unfold step, body_of; cbn. unfold malloc; cbn.
  destruct (decide _) as [E|E]; [reflexivity|]. contradiction.
Qed.

Lemma after_3_null :
  wf_platform p -> ~ allocation_succeeds p ->
  state_after_of p a b c inp 3 =
  State 3 Undefined m1 ∅ (Some h) [] t3 inp.
Proof.
  intros W H. rewrite state_after_S, after_2_null by done.
  unfold step, body_of; cbn. unfold store; cbn.
  assert (E : h = NULL).
  { destruct (decide (h = NULL)); [done|]. now exfalso; apply H. }
  assert (L : m1 !! h = None).
  { rewrite E, lookup_insert_ne, lookup_singleton_ne; [done| |].
    - now apply wf_global_not_null.
    - now apply wf_stack_not_null. }
  rewrite L. reflexivity.
Qed.

End Points.

(** ** Literals and process input do not steer the run *)

Lemma dom_lookup_None (m1 m2 : gmap Z val) (k : Z) :
  dom m1 = dom m2 -> m1 !! k = None -> m2 !! k = None.
Proof.
  intros Hd H. apply not_elem_of_dom. rewrite <- Hd. now apply not_elem_of_dom.
Qed.

Lemma similar_store a v1 v2 s1 s2 :
  similar s1 s2 -> similar (store a v1 s1) (store a v2 s2).
Proof.
  intros (Hpc & Hst & Hdom & Hal & Hhv & Hout). unfold store; cbn.
  destruct (mem s1 !! a) eqn:E1, (mem s2 !! a) eqn:E2.
  - unfold similar; cbn. rewrite !dom_insert_L, Hdom. tauto.
  - apply (dom_lookup_None _ (mem s1)) in E2; [congruence|done].
  - apply (dom_lookup_None _ (mem s2)) in E1; [congruence|done].
  - unfold similar; cbn. tauto.
Qed.

Lemma similar_free a s1 s2 :
  similar s1 s2 -> similar (free a s1) (free a s2).
Proof.
  intros (Hpc & Hst & Hdom & Hal & Hhv & Hout). unfold free; cbn.
  rewrite Hal. destruct (decide (a = NULL)); [unfold similar; cbn; tauto|].
  destruct (decide _); unfold similar; cbn; [|tauto].
  rewrite !dom_delete_L, Hdom. tauto.
Qed.

Lemma similar_printf fmt a s1 s2 :
  similar s1 s2 -> similar (printf fmt a s1) (printf fmt a s2).
Proof.
  intros (Hpc & Hst & Hdom & Hal & Hhv & Hout).
  unfold similar, printf; cbn. rewrite Hout. tauto.
Qed.

Lemma similar_return p code s1 s2 :
  similar s1 s2 -> similar (return_ p code s1) (return_ p code s2).
Proof.
  intros (Hpc & Hst & Hdom & Hal & Hhv & Hout).
  unfold similar, return_; cbn. rewrite !dom_delete_L, Hdom. tauto.
Qed.

Lemma similar_set_pc n s1 s2 :
  similar s1 s2 -> similar (set_pc n s1) (set_pc n s2).
Proof. unfold similar; cbn. tauto. Qed.

Ltac sim_done S :=
  destruct S as (? & ? & ? & ? & ? & ?); repeat split; congruence.

Lemma similar_step p a b a' b' s1 s2 :
  similar s1 s2 ->
  similar (step p (body_of p a b) s1) (step p (body_of p a' b') s2).
Proof.
  intros S. pose proof S as (Hpc & Hst & Hdom & Hal & Hhv & Hout).
  unfold step. rewrite Hst, Hpc. destruct (st s2); [|done..].
  apply similar_set_pc.
  remember (pc s2) as n eqn:En.
  destruct n as [|[|[|[|[|[|[|[|n]]]]]]]]; cbn [body_of lookup list_lookup].
  - unfold similar, declare_int; cbn. rewrite !dom_insert_L, Hdom. sim_done S.
  - unfold malloc; cbn. destruct (decide _); unfold similar; cbn;
      rewrite ?dom_insert_L, Hdom, Hal; sim_done S.
  - unfold with_heap_var. rewrite Hhv. destruct (heap_var s2).
    + now apply similar_store.
    + unfold similar; cbn. sim_done S.
  - now apply similar_printf.
  - unfold with_heap_var. rewrite Hhv. destruct (heap_var s2).
    + now apply similar_printf.
    + unfold similar; cbn. sim_done S.
  - now apply similar_printf.
  - unfold with_heap_var. rewrite Hhv. destruct (heap_var s2).
    + now apply similar_free.
    + unfold similar; cbn. sim_done S.
  - now apply similar_return.
  - now apply similar_return.
Qed.

Lemma similar_state_after p a b c a' b' c' inp inp' k :
  similar (state_after_of p a b c inp k) (state_after_of p a' b' c' inp' k).
Proof.
  induction k as [|k IH].
  - unfold similar; cbn. rewrite !dom_singleton_L. tauto.
  - rewrite !state_after_S. now apply similar_step.
Qed.

(** ** The claims *)

Lemma main_is_after_8 p inp :
  main p inp = state_after_of p 10 20 global_var inp 8.
Proof. unfold main, run_of, body_of. cbn [length]. reflexivity. Qed.

Lemma state_after_eq p inp k :
  state_after p inp k = state_after_of p 10 20 global_var inp k.
Proof. reflexivity. Qed.

Lemma run_of_is_after_8 p a b c inp :
  run_of p a b c inp = state_after_of p a b c inp 8.
Proof. unfold run_of, body_of. cbn [length]. reflexivity. Qed.

Lemma string_app_assoc (x y z : string) :
  ((x ++ y) ++ z = x ++ (y ++ z))%string.
Proof.
  induction x as [|ch x IH]; [reflexivity|].
  change (String ch ((x ++ y) ++ z) = String ch (x ++ (y ++ z)))%string.
  now rewrite IH.
Qed.

Lemma render_app p (l1 l2 : list item) :
  fold_right String.append EmptyString (map (render p) (l1 ++ l2)) =
  (fold_right String.append EmptyString (map (render p) l1) ++
   fold_right String.append EmptyString (map (render p) l2))%string.
Proof.
  induction l1 as [|i l1 IH]; [reflexivity|].
  change (render p i ++
          fold_right String.append EmptyString (map (render p) (l1 ++ l2)) =
          (render p i ++
           fold_right String.append EmptyString (map (render p) l1)) ++
          fold_right String.append EmptyString (map (render p) l2))%string.
  now rewrite IH, string_app_assoc.
Qed.

(** C1. In every run in which allocation succeeds, standard output is
    exactly three lines, [Address of stack_var: ...], then
    [Address of heap_var: ...], then [Address of global_var: ...], each
    ending in the [%p] rendering of the corresponding address. *)
Theorem C1_three_address_lines (p : platform) (inp : process_input) :
  allocation_succeeds p ->
  stdout_text p (main p inp) =
    (address_line p "stack_var" (addr_stack_var p) ++
     address_line p "heap_var" (malloc_ret p (sizeof_int p)) ++
     address_line p "global_var" (addr_global_var p))%string
  /\ count_lines (out (main p inp)) = 3%nat
  /\ reported_addresses (main p inp) =
       [addr_stack_var p; malloc_ret p (sizeof_int p); addr_global_var p].
Proof.
  intros H. rewrite main_is_after_8.
  rewrite after_8 by done.
  unfold stdout_text, count_lines, reported_addresses; cbn [out].
  split; [|split; vm_compute; reflexivity].
  rewrite !render_app.
  assert (L1 : forall x,
    fold_right String.append EmptyString
      (map (render p) (format ("Address of stack_var: %p" ++ nl) x)) =
    address_line p "stack_var" x) by (intros x; vm_compute; reflexivity).
  assert (L2 : forall x,
    fold_right String.append EmptyString
      (map (render p) (format ("Address of heap_var: %p" ++ nl) x)) =
    address_line p "heap_var" x) by (intros x; vm_compute; reflexivity).
  assert (L3 : forall x,
    fold_right String.append EmptyString
      (map (render p) (format ("Address of global_var: %p" ++ nl) x)) =
    address_line p "global_var" x) by (intros x; vm_compute; reflexivity).
  rewrite L1, L2, L3. apply string_app_assoc.
Qed.

Lemma C1_three_address_lines_witness :
  allocation_succeeds linux /\
  stdout_text linux (main linux some_input) =
    (address_line linux "stack_var" 140722318422252 ++
     address_line linux "heap_var" 4215456 ++
     address_line linux "global_var" 4210728)%string.
Proof.
  split; [exact linux_allocates|].
  exact (proj1 (C1_three_address_lines linux some_input linux_allocates)).
Defined.

Lemma filled_memory_lookups (as_ ag h : Z) (a b c : Z) :
  h <> as_ -> h <> ag -> as_ <> ag ->
  let m : gmap Z val :=
    <[h := Vint b]> (<[h := Vundef]> (<[as_ := Vint a]> {[ag := Vint c]})) in
  m !! as_ = Some (Vint a) /\ m !! h = Some (Vint b) /\ m !! ag = Some (Vint c).
Proof.
  intros H1 H2 H3 m. subst m. repeat split.
  - now rewrite !lookup_insert_ne, lookup_insert_eq by done.
  - now rewrite lookup_insert_eq.
  - now rewrite !lookup_insert_ne, lookup_singleton_eq by done.
Qed.

(** C2. At every program point after the assignments and before the
    release (after statements 3 to 6 of [main]), [stack_var] holds 10, the
    slot [heap_var] points to reads back 20, and [global_var] holds 42. *)
Theorem C2_values_in_place (p : platform) (inp : process_input) (k : nat) :
  wf_platform p -> allocation_succeeds p -> (3 <= k <= 6)%nat ->
  load (addr_stack_var p) (state_after p inp k) = Some (Vint 10)
  /\ (exists h, heap_var (state_after p inp k) = Some h
                /\ load h (state_after p inp k) = Some (Vint 20))
  /\ load (addr_global_var p) (state_after p inp k) = Some (Vint 42).
Proof.
  intros W H Hk.
  destruct (filled_memory_lookups (addr_stack_var p) (addr_global_var p)
              (malloc_ret p (sizeof_int p)) 10 20 42) as (L1 & L2 & L3).
  { now apply wf_heap_stack. }
  { now apply wf_heap_global. }
  { now apply wf_stack_global. }
  assert (E : (k = 3 \/ k = 4 \/ k = 5 \/ k = 6)%nat) by lia.
  unfold state_after, global_var, load.
  destruct E as [-> | [-> | [-> | ->]]];
    [ rewrite (after_3 p 10 20 42 inp H)
    | rewrite (after_4 p 10 20 42 inp H)
    | rewrite (after_5 p 10 20 42 inp H)
    | rewrite (after_6 p 10 20 42 inp H) ];
    cbn [mem heap_var]; (split; [exact L1 | split; [eauto | exact L3]]).
Qed.

Lemma C2_values_in_place_witness :
  load (addr_stack_var linux) (state_after linux no_input 3) = Some (Vint 10)
  /\ (exists h, heap_var (state_after linux no_input 3) = Some h
                /\ load h (state_after linux no_input 3) = Some (Vint 20))
  /\ load (addr_global_var linux) (state_after linux no_input 3) = Some (Vint 42).
Proof.
  apply (C2_values_in_place linux no_input 3).
  - unfold wf_platform, in_object, disjoint_objects, NULL; cbn. lia.
  - unfold allocation_succeeds, NULL; cbn. lia.
  - lia.
Defined.

(** The invariant behind C9: [global_var] still holds its initial value,
    no store has targeted it, and the pointer in [heap_var] is not its
    address. *)
Lemma global_untouched_step p a b v s :
  wf_platform p ->
  mem s !! addr_global_var p = Some v ->
  existsb (writes_to (addr_global_var p)) (trace s) = false ->
  (forall h, heap_var s = Some h -> h <> addr_global_var p) ->
  mem (step p (body_of p a b) s) !! addr_global_var p = Some v
  /\ existsb (writes_to (addr_global_var p))
       (trace (step p (body_of p a b) s)) = false
  /\ (forall h, heap_var (step p (body_of p a b) s) = Some h ->
                h <> addr_global_var p).
Proof.
  intros W Hm Ht Hh.
  pose proof (wf_stack_global p W) as Hsg.
  pose proof (wf_global_not_null p W) as Hg0.
  unfold step. destruct (st s); [|done..].
  destruct (pc s) as [|[|[|[|[|[|[|[|n]]]]]]]]; cbn [body_of lookup list_lookup].
  - unfold declare_int; cbn. now rewrite lookup_insert_ne.
  - unfold malloc; cbn. destruct (decide _) as [E|E]; cbn;
      rewrite existsb_app, Ht; cbn.
    + repeat split; [done|]. intros h [= <-]. congruence.
    + assert (malloc_ret p (sizeof_int p) <> addr_global_var p)
        by now apply wf_heap_global.
      rewrite lookup_insert_ne by done.
      repeat split; [done|]. now intros h [= <-].
  - unfold with_heap_var. destruct (heap_var s) as [h|] eqn:E; [|cbn; rewrite E; done].
    specialize (Hh h eq_refl). unfold store; cbn.
    destruct (mem s !! h); cbn; rewrite existsb_app, Ht; cbn;
      rewrite bool_decide_eq_false_2 by done;
      rewrite ?lookup_insert_ne by done;
      (repeat split; [done..|]); intros h' ?; simplify_eq; done.
  - unfold printf; cbn. now rewrite existsb_app, Ht.
  - unfold with_heap_var. destruct (heap_var s) as [h|] eqn:E; [|cbn; rewrite E; done].
    unfold printf; cbn. rewrite existsb_app, Ht, E. done.
  - unfold printf; cbn. now rewrite existsb_app, Ht.
  - unfold with_heap_var. destruct (heap_var s) as [h|] eqn:E; [|cbn; rewrite E; done].
    specialize (Hh h eq_refl). unfold free; cbn.
    destruct (decide (h = NULL)); [|destruct (decide _)]; cbn;
      rewrite existsb_app, Ht; cbn; rewrite ?lookup_delete_ne by done;
      (repeat split; [done..|]); intros h' ?; simplify_eq; done.
  - unfold return_; cbn. rewrite lookup_delete_ne by done.
    now rewrite existsb_app, Ht.
  - destruct n; unfold return_; cbn;
      (rewrite lookup_delete_ne by done); now rewrite existsb_app, Ht.
Qed.

(** C9. At every program point of every run, [global_var] holds 42 and no
    store in the trace targets its address. *)
Theorem C9_global_var_never_written (p : platform) (inp : process_input)
    (k : nat) :
  wf_platform p ->
  load (addr_global_var p) (state_after p inp k) = Some (Vint 42)
  /\ existsb (writes_to (addr_global_var p))
       (trace (state_after p inp k)) = false.
Proof.
  intros W. unfold load, state_after, global_var.
  cut (mem (state_after_of p 10 20 42 inp k) !! addr_global_var p
         = Some (Vint 42)
       /\ existsb (writes_to (addr_global_var p))
            (trace (state_after_of p 10 20 42 inp k)) = false
       /\ (forall h, heap_var (state_after_of p 10 20 42 inp k) = Some h ->
                     h <> addr_global_var p)).
  { tauto. }
  induction k as [|k (IH1 & IH2 & IH3)].
  - rewrite after_0; cbn. now rewrite lookup_singleton_eq.
  - rewrite state_after_S. now apply global_untouched_step.
Qed.

Lemma C9_global_var_never_written_witness :
  load (addr_global_var linux_out_of_memory)
       (state_after linux_out_of_memory no_input 3) = Some (Vint 42)
  /\ existsb (writes_to (addr_global_var linux_out_of_memory))
       (trace (state_after linux_out_of_memory no_input 3)) = false.
Proof.
  apply (C9_global_var_never_written linux_out_of_memory no_input 3).
  unfold wf_platform, in_object, disjoint_objects, NULL; cbn.
  split; [lia|]. split; [lia|]. split; [lia|]. split; [lia|].
  intros H. now contradiction H.
Defined.

(** ** Runs in which [malloc] returns the null pointer *)

Lemma null_run_stops p a b c inp n :
  wf_platform p -> ~ allocation_succeeds p -> (3 <= n)%nat ->
  state_after_of p a b c inp n = state_after_of p a b c inp 3.
Proof.
  intros W H Hn. apply state_after_stopped; [|exact Hn].
  now rewrite after_3_null.
Qed.

Lemma success_dec p : {allocation_succeeds p} + {~ allocation_succeeds p}.
Proof.
  unfold allocation_succeeds.
  destruct (decide (malloc_ret p (sizeof_int p) = NULL)); [right|left]; tauto.
Qed.

(** C3, as stated, fails: when the heap is exhausted the run stops at the
    store through the null pointer; nothing was allocated and [free] is
    never reached. *)
Lemma C3_counterexample :
  wf_platform linux_out_of_memory
  /\ releases (trace (main linux_out_of_memory no_input)) = []
  /\ ~ allocated_and_released_once (trace (main linux_out_of_memory no_input)).
Proof.
  split; [exact linux_out_of_memory_wf|].
  split; [vm_compute; reflexivity|].
  intros (h & Ha & _). vm_compute in Ha. discriminate Ha.
Qed.

(** C3 (amended). In every run in which allocation succeeds, the trace
    holds exactly one allocation and exactly one release, of that same
    block; the allocation comes before the release, no use of the block
    comes after it, and the exit comes after it and not before. *)
Theorem C3_one_allocation_one_release (p : platform) (inp : process_input) :
  allocation_succeeds p ->
  allocated_and_released_once (trace (main p inp)).
Proof.
  intros H. exists (malloc_ret p (sizeof_int p)).
  rewrite main_is_after_8. rewrite after_8 by done.
  cbn [trace app]. unfold allocations, releases.
  cbn [flat_map app before_release after_release is_free_of].
  rewrite bool_decide_eq_true_2 by reflexivity.
  cbn [existsb is_malloc_of uses is_exit orb].
  rewrite bool_decide_eq_true_2 by reflexivity.
  destruct (decide _) as [E|E]; [contradiction|]. done.
Qed.

Lemma C3_one_allocation_one_release_witness :
  allocated_and_released_once (trace (main linux some_input)).
Proof.
  apply (C3_one_allocation_one_release linux some_input).
  unfold allocation_succeeds, NULL; cbn. lia.
Defined.

(** C4. The store through [heap_var] is issued whatever [malloc]
    returned: after the third statement the trace is the call to [malloc]
    followed by the store through its result.  The run is still defined
    after that store exactly when allocation succeeded. *)
Theorem C4_store_unchecked (p : platform) (inp : process_input) :
  wf_platform p ->
  trace (state_after p inp 3) =
    [EvMalloc (sizeof_int p) (malloc_ret p (sizeof_int p));
     EvStore (malloc_ret p (sizeof_int p)) 20]
  /\ (st (state_after p inp 3) = Running <-> allocation_succeeds p)
  /\ (~ allocation_succeeds p -> st (state_after p inp 3) = Undefined).
Proof.
  intros W. rewrite !state_after_eq.
  destruct (success_dec p) as [H|H].
  - rewrite after_3 by done. cbn [trace st]. tauto.
  - rewrite after_3_null by done. cbn [trace st].
    split; [reflexivity|]. split; [|reflexivity].
    split; [discriminate|contradiction].
Qed.

Lemma C4_store_unchecked_witness :
  trace (state_after linux_out_of_memory no_input 3) =
    [EvMalloc 4 NULL; EvStore NULL 20]
  /\ st (state_after linux_out_of_memory no_input 3) = Undefined.
Proof.
  assert (W : wf_platform linux_out_of_memory).
  { unfold wf_platform, in_object, disjoint_objects, NULL; cbn.
    split; [lia|]. split; [lia|]. split; [lia|]. split; [lia|].
    intros H. now contradiction H. }
  destruct (C4_store_unchecked linux_out_of_memory no_input W)
    as (T & _ & U).
  split; [exact T|]. apply U.
  unfold allocation_succeeds; cbn. intros H. now apply H.
Defined.

Lemma reported_when_allocated p a b c inp :
  allocation_succeeds p ->
  reported_addresses (state_after_of p a b c inp 8) =
    [addr_stack_var p; malloc_ret p (sizeof_int p); addr_global_var p].
Proof.
  intros H. rewrite after_8 by done. unfold reported_addresses; cbn [out].
  vm_compute. reflexivity.
Qed.

Lemma reported_when_null p a b c inp :
  wf_platform p -> ~ allocation_succeeds p ->
  reported_addresses (state_after_of p a b c inp 8) = [].
Proof.
  intros W H. rewrite null_run_stops by (done || lia).
  rewrite after_3_null by done. reflexivity.
Qed.

(** C5. The addresses printed in a run are pairwise distinct; when
    allocation succeeds they are the addresses of [stack_var], of the
    allocated slot and of [global_var], in that order. *)
Theorem C5_addresses_distinct (p : platform) (inp : process_input) :
  wf_platform p ->
  NoDup (reported_addresses (main p inp))
  /\ (allocation_succeeds p ->
      reported_addresses (main p inp) =
        [addr_stack_var p; malloc_ret p (sizeof_int p); addr_global_var p]).
Proof.
  intros W. rewrite main_is_after_8.
  destruct (success_dec p) as [H|H].
  - rewrite reported_when_allocated by exact H.
    split; [|reflexivity].
    pose proof (wf_heap_stack p W H) as N1.
    pose proof (wf_heap_global p W H) as N2.
    pose proof (wf_stack_global p W) as N3.
    apply NoDup_cons. split.
    { rewrite !elem_of_cons, elem_of_nil. intros [E | [E | []]]; congruence. }
    apply NoDup_cons. split; [|apply NoDup_singleton].
    rewrite elem_of_cons, elem_of_nil. intros [E | []]. congruence.
  - rewrite reported_when_null by assumption.
    split; [constructor|]. intros H'. now contradiction H.
Qed.

Lemma C5_addresses_distinct_witness :
  NoDup (reported_addresses (main linux no_input))
  /\ reported_addresses (main linux no_input) =
       [140722318422252; 4215456; 4210728].
Proof.
  assert (W : wf_platform linux).
  { unfold wf_platform, in_object, disjoint_objects, NULL; cbn. lia. }
  destruct (C5_addresses_distinct linux no_input W) as (N & E).
  split; [exact N|]. apply E. unfold allocation_succeeds, NULL; cbn. lia.
Defined.

(** C6. In every run in which allocation succeeds the process exits with
    status 0, and the only exit recorded in the trace is that one. *)
Theorem C6_exit_status_zero (p : platform) (inp : process_input) :
  allocation_succeeds p ->
  st (main p inp) = Exited 0
  /\ List.filter is_exit (trace (main p inp)) = [EvExit 0].
Proof.
  intros H. rewrite main_is_after_8.
  rewrite after_8 by done. split; reflexivity.
Qed.

Lemma C6_exit_status_zero_witness :
  st (main linux some_input) = Exited 0
  /\ List.filter is_exit (trace (main linux some_input)) = [EvExit 0].
Proof.
  apply (C6_exit_status_zero linux some_input).
  unfold allocation_succeeds, NULL; cbn. lia.
Defined.

(** The literals and the process input never reach standard output or
    the exit status, in any run. *)
Lemma output_independent p a b c a' b' c' inp inp' :
  out (run_of p a b c inp) = out (run_of p a' b' c' inp')
  /\ st (run_of p a b c inp) = st (run_of p a' b' c' inp').
Proof.
  rewrite !run_of_is_after_8.
  destruct (similar_state_after p a b c a' b' c' inp inp' 8)
    as (_ & Hst & _ & _ & _ & Hout).
  now split.
Qed.

Lemma main_is_run_of p inp : main p inp = run_of p 10 20 global_var inp.
Proof. reflexivity. Qed.

Lemma masked_when_allocated p a b c inp :
  allocation_succeeds p ->
  masked_output (state_after_of p a b c inp 8) =
    format ("Address of stack_var: %p" ++ nl) 0 ++
    format ("Address of heap_var: %p" ++ nl) 0 ++
    format ("Address of global_var: %p" ++ nl) 0.
Proof.
  intros H. rewrite after_8 by done. unfold masked_output; cbn [out].
  vm_compute. reflexivity.
Qed.

Lemma exited_when_allocated p a b c inp :
  allocation_succeeds p -> st (state_after_of p a b c inp 8) = Exited 0.
Proof. intros H. now rewrite after_8. Qed.

(** C7, as stated, fails: two runs of the same program on the same
    machine differ in their output when [malloc] succeeds in one and
    returns the null pointer in the other. *)
Lemma C7_counterexample :
  wf_platform linux /\ wf_platform linux_out_of_memory
  /\ masked_output (main linux no_input)
     <> masked_output (main linux_out_of_memory no_input).
Proof.
  split; [exact linux_wf|]. split; [exact linux_out_of_memory_wf|].
  vm_compute. discriminate.
Qed.

(** C7 (amended). The process input is never consumed: for any two runs
    in which allocation succeeds, whatever their arguments, environment
    and standard input and whatever the platform, the output is the same
    once the printed addresses are blanked, and so is the exit status; on
    one platform the output is the same outright. *)
Theorem C7_output_same_up_to_addresses (p1 p2 : platform)
    (i1 i2 : process_input) :
  allocation_succeeds p1 -> allocation_succeeds p2 ->
  masked_output (main p1 i1) = masked_output (main p2 i2)
  /\ st (main p1 i1) = st (main p2 i2)
  /\ out (main p1 i1) = out (main p1 i2).
Proof.
  intros H1 H2. split; [|split].
  - rewrite !main_is_after_8. now rewrite !masked_when_allocated.
  - rewrite !main_is_after_8. now rewrite !exited_when_allocated.
  - rewrite !main_is_run_of. apply output_independent.
Qed.

Lemma C7_output_same_up_to_addresses_witness :
  masked_output (main linux no_input) =
  masked_output
    (main (Platform 8 4096 8192 (fun _ => 12288) HexString.of_Z) some_input)
  /\ st (main linux no_input) =
     st (main (Platform 8 4096 8192 (fun _ => 12288) HexString.of_Z) some_input)
  /\ out (main linux no_input) = out (main linux some_input).
Proof.
  apply (C7_output_same_up_to_addresses linux
           (Platform 8 4096 8192 (fun _ => 12288) HexString.of_Z)
           no_input some_input).
  - unfold allocation_succeeds, NULL; cbn. lia.
  - unfold allocation_succeeds, NULL; cbn. lia.
Defined.

(** C8, as stated, fails: when the heap is exhausted the run does not
    reach successful exit; it stops, undefined, at the store through the
    null pointer. *)
Lemma C8_counterexample :
  wf_platform linux_out_of_memory
  /\ st (main linux_out_of_memory no_input) = Undefined
  /\ st (main linux_out_of_memory no_input) <> Exited 0.
Proof.
  split; [exact linux_out_of_memory_wf|].
  split; [vm_compute; reflexivity|]. vm_compute. discriminate.
Qed.

(** C8 (amended). Every invocation in which allocation succeeds
    terminates: the eight statements of [main] run once each, in order
    (after [k < 8] steps the run is still going and is at statement [k]),
    the eighth step exits with status 0, and no further step changes the
    state. *)
Theorem C8_straight_line_termination (p : platform) (inp : process_input) :
  allocation_succeeds p ->
  (forall k, (k < 8)%nat ->
     st (state_after p inp k) = Running /\ pc (state_after p inp k) = k)
  /\ st (main p inp) = Exited 0
  /\ (forall n, (8 <= n)%nat -> state_after p inp n = main p inp).
Proof.
  intros H. split; [|split].
  - intros k Hk. rewrite state_after_eq.
    destruct k as [|[|[|[|[|[|[|[|k]]]]]]]]; [..|lia].
    + now rewrite after_0.
    + now rewrite after_1.
    + now rewrite after_2.
    + now rewrite after_3.
    + now rewrite after_4.
    + now rewrite after_5.
    + now rewrite after_6.
    + now rewrite after_7.
  - rewrite main_is_after_8. now apply exited_when_allocated.
  - intros n Hn. rewrite state_after_eq, main_is_after_8.
    apply state_after_stopped; [|exact Hn].
    now rewrite exited_when_allocated.
Qed.

Lemma C8_straight_line_termination_witness :
  (forall k, (k < 8)%nat ->
     st (state_after linux no_input k) = Running
     /\ pc (state_after linux no_input k) = k)
  /\ st (main linux no_input) = Exited 0
  /\ (forall n, (8 <= n)%nat -> state_after linux no_input n = main linux no_input).
Proof.
  apply (C8_straight_line_termination linux no_input).
  unfold allocation_succeeds, NULL; cbn. lia.
Defined.

(** C10. Whatever three literals are assigned in place of 10, 20 and 42,
    the items written to standard output, and so its text, are those of
    the program as written: only addresses are printed, never values. *)
Theorem C10_values_never_printed (p : platform) (inp : process_input)
    (lit_stack lit_heap lit_global : Z) :
  out (run_of p lit_stack lit_heap lit_global inp) = out (main p inp)
  /\ stdout_text p (run_of p lit_stack lit_heap lit_global inp) =
     stdout_text p (main p inp).
Proof.
  rewrite main_is_run_of.
  destruct (output_independent p lit_stack lit_heap lit_global
              10 20 global_var inp inp) as (E & _).
  unfold stdout_text. rewrite E. now split.
Qed.

(** * Further properties of [main] *)

(** ** What is left at exit *)

Lemma emptied_memory (as_ ag h : Z) (a b c : Z) :
  h <> as_ -> h <> ag -> as_ <> ag ->
  delete as_ (delete h
    (<[h := Vint b]> (<[h := Vundef]>
       (<[as_ := Vint a]> ({[ag := Vint c]} : gmap Z val))))) =
  {[ag := Vint c]}.
Proof.
  intros H1 H2 H3. apply map_eq. intros i.
  destruct (decide (i = as_)) as [->|Ni].
  - rewrite lookup_delete_eq. now rewrite lookup_singleton_ne.
  - rewrite lookup_delete_ne by done.
    destruct (decide (i = h)) as [->|Nh].
    + rewrite lookup_delete_eq. now rewrite lookup_singleton_ne.
    + now rewrite lookup_delete_ne, !lookup_insert_ne by done.
Qed.

(** X1. When allocation succeeds the process exits with nothing leaked:
    no block obtained from [malloc] is still live, and the only object
    left in memory is [global_var], holding 42; the heap slot and
    [stack_var] are gone. *)
Theorem X1_nothing_leaked_at_exit (p : platform) (inp : process_input) :
  wf_platform p -> allocation_succeeds p ->
  allocated (main p inp) = ∅
  /\ mem (main p inp) = {[ addr_global_var p := Vint 42 ]}
  /\ load (malloc_ret p (sizeof_int p)) (main p inp) = None
  /\ load (addr_stack_var p) (main p inp) = None.
Proof.
  intros W H. rewrite main_is_after_8, after_8 by exact H.
  unfold load; cbn [allocated mem].
  pose proof (wf_heap_stack p W H) as N1.
  pose proof (wf_heap_global p W H) as N2.
  pose proof (wf_stack_global p W) as N3.
  rewrite emptied_memory by assumption.
  split; [now rewrite union_empty_l_L, difference_diag_L|].
  split; [reflexivity|].
  split; now rewrite lookup_singleton_ne.
Qed.

Lemma X1_nothing_leaked_at_exit_witness :
  allocated (main linux some_input) = ∅
  /\ mem (main linux some_input) = {[ addr_global_var linux := Vint 42 ]}
  /\ load (malloc_ret linux (sizeof_int linux)) (main linux some_input) = None
  /\ load (addr_stack_var linux) (main linux some_input) = None.
Proof.
  apply (X1_nothing_leaked_at_exit linux some_input).
  - unfold wf_platform, in_object, disjoint_objects, NULL; cbn. lia.
  - unfold allocation_succeeds, NULL; cbn. lia.
Defined.

(** ** The process input is carried along, unread *)



(** ** When [malloc] returns the null pointer *)

(** X3. [main] stores through [heap_var] before it prints anything and
    without testing it.  So in a run in which [malloc] returns the null
    pointer the run is undefined from the third statement on: nothing has
    been written to standard output, no block is live, [free] is not
    reached and no exit status is produced. *)
Theorem X3_failed_allocation_run (p : platform) (inp : process_input) :
  wf_platform p -> ~ allocation_succeeds p ->
  st (main p inp) = Undefined
  /\ out (main p inp) = []
  /\ allocated (main p inp) = ∅
  /\ releases (trace (main p inp)) = []
  /\ List.filter is_exit (trace (main p inp)) = []
  /\ (forall n, (3 <= n)%nat -> state_after p inp n = main p inp).
Proof.
  intros W H.
  assert (E : forall n, (3 <= n)%nat ->
    state_after_of p 10 20 global_var inp n =
    state_after_of p 10 20 global_var inp 3).
  { intros n Hn. now apply null_run_stops. }
  rewrite main_is_after_8, (E 8%nat) by lia.
  split; [|split; [|split; [|split; [|split]]]];
    try (rewrite after_3_null by assumption; reflexivity).
  intros n Hn. rewrite state_after_eq. now apply E.
Qed.

Lemma X3_failed_allocation_run_witness :
  st (main linux_out_of_memory some_input) = Undefined
  /\ out (main linux_out_of_memory some_input) = []
  /\ allocated (main linux_out_of_memory some_input) = ∅
  /\ releases (trace (main linux_out_of_memory some_input)) = []
  /\ List.filter is_exit (trace (main linux_out_of_memory some_input)) = []
  /\ (forall n, (3 <= n)%nat ->
        state_after linux_out_of_memory some_input n =
        main linux_out_of_memory some_input).
Proof.
  apply (X3_failed_allocation_run linux_out_of_memory some_input).
  - unfold wf_platform, in_object, disjoint_objects, NULL; cbn.
    split; [lia|]. split; [lia|]. split; [lia|]. split; [lia|].
    intros H. now contradiction H.
  - unfold allocation_succeeds; cbn. intros H. now apply H.
Defined.

(** ** Output and trace only grow *)




(** ** Lifetimes of the objects *)




(** ** Every run stops *)

Lemma step_running p a b s :
  st s = Running ->
  pc (step p (body_of p a b) s) = S (pc s)
  /\ (st (step p (body_of p a b) s) = Running
      \/ st (step p (body_of p a b) s) = Undefined
      \/ st (step p (body_of p a b) s) = Exited 0)
  /\ ((7 <= pc s)%nat -> st (step p (body_of p a b) s) = Exited 0).
Proof.
  destruct s as [n x m al hv o t i0]. cbn [st pc]. intros ->.
  unfold step; cbn [st pc].
  destruct n as [|[|[|[|[|[|[|[|n]]]]]]]]; cbn [body_of lookup list_lookup].
  - cbn. split; [done|]. split; [tauto|lia].
  - unfold malloc; cbn. destruct (decide _); cbn;
      (split; [done|]; split; [tauto|lia]).
  - destruct hv as [h|]; unfold with_heap_var, store; cbn;
      [destruct (m !! h); cbn|]; (split; [done|]; split; [tauto|lia]).
  - cbn. split; [done|]. split; [tauto|lia].
  - destruct hv as [h|]; cbn; (split; [done|]; split; [tauto|lia]).
  - cbn. split; [done|]. split; [tauto|lia].
  - destruct hv as [h|]; unfold with_heap_var, free; cbn;
      [destruct (decide (h = NULL)); [|destruct (decide _)]; cbn|];
      (split; [done|]; split; [tauto|lia]).
  - cbn. split; [done|]. split; [tauto|done].
  - destruct n; cbn; (split; [done|]; split; [tauto|done]).
Qed.

Lemma reachable_status p a b c inp k :
  (st (state_after_of p a b c inp k) = Running ->
   pc (state_after_of p a b c inp k) = k)
  /\ (st (state_after_of p a b c inp k) = Running
      \/ st (state_after_of p a b c inp k) = Undefined
      \/ st (state_after_of p a b c inp k) = Exited 0).
Proof.
  induction k as [|k (IHpc & IHst)].
  - rewrite after_0. cbn. tauto.
  - rewrite state_after_S.
    destruct IHst as [R | NR].
    + destruct (step_running p a b _ R) as (Hpc & Hst & _).
      rewrite Hpc, (IHpc R). tauto.
    + rewrite step_stopped by (destruct NR as [E|E]; rewrite E; discriminate).
      split; [|tauto]. intros R. destruct NR as [E|E]; congruence.
Qed.

(** X4. Every run stops, on every platform and whether or not [malloc]
    succeeds: after the eight statements of [main] the run is no longer
    going, it has either exited with status 0 or become undefined (no
    other exit status is ever produced), and no later step changes the
    state. *)
Theorem X4_every_run_stops (p : platform) (inp : process_input) :
  (st (main p inp) = Exited 0 \/ st (main p inp) = Undefined)
  /\ (forall n, (8 <= n)%nat -> state_after p inp n = main p inp)
  /\ (forall k code, st (state_after p inp k) = Exited code -> code = 0).
Proof.
  assert (F : st (state_after_of p 10 20 global_var inp 8) = Exited 0
              \/ st (state_after_of p 10 20 global_var inp 8) = Undefined).
  { rewrite (state_after_S p 10 20 global_var inp 7).
    destruct (reachable_status p 10 20 global_var inp 7) as (Hpc & [R|[U|E]]).
    - destruct (step_running p 10 20 _ R) as (_ & _ & Hx).
      left. apply Hx. rewrite (Hpc R). lia.
    - rewrite step_stopped by (rewrite U; discriminate). now right.
    - rewrite step_stopped by (rewrite E; discriminate). now left. }
  rewrite main_is_after_8. split; [exact F|]. split.
  - intros n Hn. rewrite state_after_eq.
    apply state_after_stopped; [|exact Hn].
    destruct F as [E|E]; rewrite E; discriminate.
  - intros k code E. rewrite state_after_eq in E.
    destruct (reachable_status p 10 20 global_var inp k) as (_ & [R|[U|X]]);
      congruence.
Qed.

Lemma X4_every_run_stops_witness :
  (st (main linux_out_of_memory no_input) = Exited 0
   \/ st (main linux_out_of_memory no_input) = Undefined)
  /\ (forall n, (8 <= n)%nat ->
        state_after linux_out_of_memory no_input n =
        main linux_out_of_memory no_input)
  /\ (forall k code,
        st (state_after linux_out_of_memory no_input k) = Exited code ->
        code = 0).
Proof.
  exact (X4_every_run_stops linux_out_of_memory no_input).
Defined.
